(** * Verification of [verification/verify_project_modal.py]

    The script drives a headless browser through the Playwright API, takes
    one screenshot and prints a few diagnostic lines.  It has no pure
    logic of its own: everything it does is a call on the outside world,
    ordered by Python's [with], [try] / [except] / [finally] and [if].

    The embedding is therefore a state-and-exception monad over a [world]
    (log of calls, file system, browser and session status), and the
    outside world is an [env]: for every API call the script can make, the
    outcome of that call (a returned value or a raised exception). *)

From Stdlib Require Import ZArith String Ascii List Bool Lia.
From stdpp Require Import base option list strings gmap.

Local Open Scope Z_scope.
Local Open Scope string_scope.
Local Open Scope list_scope.

(** ** Python exceptions *)

Module Py.

(** The classes that matter to [except Exception]: Playwright's errors
    and every ordinary error derive from [Exception]; [KeyboardInterrupt]
    and [SystemExit] derive from [BaseException] only. *)
Inductive exc_class : Type :=
| PlaywrightError        (* playwright.sync_api.Error *)
| PlaywrightTimeoutError (* playwright.sync_api.TimeoutError <: Error *)
| OtherException         (* any other subclass of Exception *)
| KeyboardInterrupt
| SystemExit.

(** An exception object: its class and [str(e)]. *)
Record exc : Type := Exc { exc_class_of : exc_class; exc_str : string }.

(** [isinstance(e, Exception)] *)
Definition is_Exception (e : exc) : bool :=
  match exc_class_of e with
  | PlaywrightError | PlaywrightTimeoutError | OtherException => true
  | KeyboardInterrupt | SystemExit => false
  end.

(** What evaluating a call or a block gives: a value, or a raised
    exception. *)
Inductive outcome (A : Type) : Type :=
| Returns (a : A)
| Raises (e : exc).
Arguments Returns {A} a.
Arguments Raises {A} e.

End Py.
Import Py.

(** ** Playwright handles, locators and calls *)

(** A PNG image, as the bytes [page.screenshot] returns and writes. *)
Definition png : Type := list Byte.byte.

(** The arguments of [page.get_by_role(role, name=..., exact=...)]; a
    keyword argument that is not passed is [None]. *)
Record role_query : Type := RoleQuery {
  rq_role : string;
  rq_name : option string;
  rq_exact : option bool
}.

Inductive locator : Type :=
| ByRole (q : role_query)                   (* page.get_by_role(...) *)
| Css (selector : string)                   (* page.locator(selector) *)
| Within (parent : locator) (selector : string). (* parent.locator(selector) *)

(** The calls the script makes on the browser, the page, its locators and
    the console, with their arguments. *)
Inductive call : Type :=
| CLaunch (headless : bool)
| CNewPage
| CGoto (url : string) (timeout : Z)
| CClick (target : locator)
| CWaitForSelector (selector : string)
| CScreenshot (path : string)
| CIsVisible (target : locator)
| CPrint (line : string)
| CClose.

(** What became of the browser: [Closed] is the work of
    [browser.close()], [Terminated] that of the driver, which ends the
    browsers it launched when it is stopped. *)
Inductive browser_status : Type := NotLaunched | Open | Closed | Terminated.

(** ** The world the script acts on

    [calls] records the calls in the order the script makes them.
    Entering and leaving [with sync_playwright()] are not calls of the
    script's body: they are kept in [session_running]. *)

Record world : Type := World {
  calls : list call;            (* calls made so far, oldest first *)
  files : gmap string png;      (* the file system, by path *)
  session_running : bool;       (* inside [with sync_playwright()] *)
  browser_state : browser_status
}.

(** A fresh process started on the file system [fs]. *)
Definition fresh (fs : gmap string png) : world :=
  {| calls := []; files := fs; session_running := false;
     browser_state := NotLaunched |}.

(** The texts given to [print], one per call, in order.  A text may
    hold line breaks: [console] is a list of print calls, not of lines. *)
Definition printed (cs : list call) : list string :=
  omap (fun c => match c with CPrint s => Some s | _ => None end) cs.

Definition console (w : world) : list string := printed (calls w).

(** The lines [print(text)] writes: [text] cut at its line breaks. *)
Fixpoint lines_of (text : string) : list string :=
  match text with
  | EmptyString => [EmptyString]
  | String c rest =>
      if Ascii.eqb c "010"%char then EmptyString :: lines_of rest
      else match lines_of rest with
           | l :: ls => String c l :: ls
           | [] => [String c EmptyString]
           end
  end.

(** The console as the user reads it, line by line. *)
Definition console_lines (w : world) : list string :=
  flat_map lines_of (console w).

(** ** The environment: what each call does

    The script is deterministic; all variation comes from how the
    Playwright driver, the browser and the application under test answer.
    Answers depend on the call and its arguments only. *)
Record env : Type := Env {
  start_res : outcome unit;                    (* sync_playwright().__enter__ *)
  launch_res : bool -> outcome unit;           (* p.chromium.launch *)
  new_page_res : outcome unit;                 (* browser.new_page *)
  goto_res : string -> Z -> outcome unit;      (* page.goto *)
  click_res : locator -> outcome unit;         (* locator.click *)
  wait_for_selector_res : string -> outcome unit;
  screenshot_res : string -> outcome png;      (* page.screenshot *)
  is_visible_res : locator -> outcome bool;    (* locator.is_visible *)
  close_res : outcome unit                     (* browser.close *)
}.

(** Standard output: what writing a text to it gives.  [print] raises
    when the stream is closed or cannot encode the text. *)
Definition stdout : Type := string -> outcome unit.

(** A console that takes every text. *)
Definition accepting : stdout := fun _ => Returns tt.

(** ** The monad of script fragments *)

Definition M (A : Type) : Type := world -> outcome A * world.

#[global] Instance M_ret : MRet M := fun A a w => (Returns a, w).

#[global] Instance M_bind : MBind M := fun A B f m w =>
  match m w with
  | (Returns a, w1) => f a w1
  | (Raises e, w1) => (Raises e, w1)
  end.

Definition modify (f : world -> world) : M unit := fun w => (Returns tt, f w).

Definition log_call (c : call) (w : world) : world :=
  {| calls := calls w ++ [c]; files := files w;
     session_running := session_running w; browser_state := browser_state w |}.

Definition set_files (fs : gmap string png) (w : world) : world :=
  {| calls := calls w; files := fs;
     session_running := session_running w; browser_state := browser_state w |}.

Definition set_session (b : bool) (w : world) : world :=
  {| calls := calls w; files := files w;
     session_running := b; browser_state := browser_state w |}.

Definition set_browser (s : browser_status) (w : world) : world :=
  {| calls := calls w; files := files w;
     session_running := session_running w; browser_state := s |}.

(** A call [c] on the outside world that answers [r]: the call is logged,
    then its value is returned or its exception raised. *)
Definition api {A} (c : call) (r : outcome A) : M A :=
  fun w => (r, log_call c w).

(** [try: body / except Exception as e: handler e]: only instances of
    [Exception] are caught. *)
Definition try_except {A} (body : M A) (handler : exc -> M A) : M A :=
  fun w =>
    match body w with
    | (Returns a, w1) => (Returns a, w1)
    | (Raises e, w1) =>
        if is_Exception e then handler e w1 else (Raises e, w1)
    end.

(** [try: body / finally: final]: [final] runs on every exit of [body];
    an exception of [final] replaces the outcome of [body]. *)
Definition try_finally {A} (body : M A) (final : M unit) : M A :=
  fun w =>
    match body w with
    | (r, w1) =>
        match final w1 with
        | (Returns _, w2) => (r, w2)
        | (Raises e, w2) => (Raises e, w2)
        end
    end.

(** [with cm as x: body x], for a context manager whose [__exit__]
    returns [None] (the exception of the body, if any, is re-raised). *)
Definition with_ {A B} (enter : M A) (exit : M unit) (body : A -> M B) : M B :=
  x ← enter; try_finally (body x) exit.

(** [if c: m] *)
Definition when (c : bool) (m : M unit) : M unit :=
  if c then m else mret tt.

(** ** The Playwright calls of the script *)

Inductive playwright : Type := Playwright.
Inductive browser : Type := Browser.
Inductive page : Type := Page.

Section Script.

Variable E : env.
Variable out : stdout.

(** [sync_playwright()] as a context manager: entering starts the
    driver; leaving stops it, and with it a browser that is still open. *)
Definition sync_playwright_enter : M playwright := fun w =>
  match start_res E with
  | Returns _ => (Returns Playwright, set_session true w)
  | Raises e => (Raises e, w)
  end.

Definition stop_driver (w : world) : world :=
  set_session false
    match browser_state w with
    | Open => set_browser Terminated w
    | _ => w
    end.

Definition sync_playwright_exit : M unit := modify stop_driver.

Definition chromium_launch (p : playwright) (headless : bool) : M browser :=
  api (CLaunch headless) (launch_res E headless);;
  modify (set_browser Open);;
  mret Browser.

Definition new_page (b : browser) : M page :=
  api CNewPage (new_page_res E);; mret Page.

Definition goto (pg : page) (url : string) (timeout : Z) : M unit :=
  api (CGoto url timeout) (goto_res E url timeout).

Definition get_by_role (pg : page) (role : string) (name : option string)
    (exact : option bool) : locator :=
  ByRole {| rq_role := role; rq_name := name; rq_exact := exact |}.

Definition click (l : locator) : M unit := api (CClick l) (click_res E l).

Definition wait_for_selector (pg : page) (selector : string) : M unit :=
  api (CWaitForSelector selector) (wait_for_selector_res E selector).

(** [page.screenshot(path=...)] writes the image to [path], replacing
    what was there, and returns its bytes. *)
Definition screenshot (pg : page) (path : string) : M png :=
  img ← api (CScreenshot path) (screenshot_res E path);
  modify (fun w => set_files (<[path := img]> (files w)) w);;
  mret img.

Definition page_locator (pg : page) (selector : string) : locator :=
  Css selector.

Definition locator_locator (parent : locator) (selector : string) : locator :=
  Within parent selector.

Definition is_visible (l : locator) : M bool :=
  api (CIsVisible l) (is_visible_res E l).

(** [print(line)]: the text goes to standard output, which may raise. *)
Definition print (line : string) : M unit := api (CPrint line) (out line).

Definition browser_close (b : browser) : M unit :=
  api CClose (close_res E);; modify (set_browser Closed).

(** ** The script *)

Definition verify_project_modal : M unit :=
  with_ sync_playwright_enter sync_playwright_exit (fun p =>
    browser ← chromium_launch p true;
    page ← new_page browser;
    try_finally
      (try_except
         (goto page "http://localhost:3000" 10000;;
          click (get_by_role page "button" (Some "New Novel") None);;
          wait_for_selector page "text=Start a New Novel";;
          screenshot page "verification/project_modal_a11y.png";;
          print "Screenshot captured: verification/project_modal_a11y.png";;
          let label := page_locator page "label[for='new-book-title']" in
          label_visible ← is_visible label;
          when label_visible (print "Label for new-book-title found.");;
          let required_star := locator_locator label ".text-red-400" in
          star_visible ← is_visible required_star;
          when star_visible (print "Required star visible."))
         (fun e => print ("Error: " +:+ exc_str e)))
      (browser_close browser)).

End Script.

(** One run of the script, as a fresh process on the file system [fs],
    writing to the standard output [out]. *)
Definition run_on (out : stdout) (E : env) (fs : gmap string png)
    : outcome unit * world :=
  verify_project_modal E out (fresh fs).

(** A run on a console that takes every text. *)
Definition run (E : env) (fs : gmap string png) : outcome unit * world :=
  run_on accepting E fs.

(** The constants of the script, named for the statements below. *)
Definition app_url : string := "http://localhost:3000".
Definition nav_timeout : Z := 10000.
Definition new_novel_query : role_query :=
  {| rq_role := "button"; rq_name := Some "New Novel"; rq_exact := None |}.
Definition new_novel_button : locator := ByRole new_novel_query.
Definition modal_selector : string := "text=Start a New Novel".
Definition shot_path : string := "verification/project_modal_a11y.png".
Definition shot_line : string :=
  "Screenshot captured: verification/project_modal_a11y.png".
Definition label_locator : locator := Css "label[for='new-book-title']".
Definition label_line : string := "Label for new-book-title found.".
Definition star_locator : locator := Within label_locator ".text-red-400".
Definition star_line : string := "Required star visible.".
Definition error_line (e : exc) : string := "Error: " +:+ exc_str e.

(** ** Reading a run *)

Definition forget {A} (r : outcome A) : outcome unit :=
  match r with Returns _ => Returns tt | Raises e => Raises e end.

(** How the environment answers a logged call (the returned value
    dropped); [print] always returns. *)
Definition answer (E : env) (c : call) : outcome unit :=
  match c with
  | CLaunch h => launch_res E h
  | CNewPage => new_page_res E
  | CGoto u t => goto_res E u t
  | CClick l => click_res E l
  | CWaitForSelector s => wait_for_selector_res E s
  | CScreenshot p => forget (screenshot_res E p)
  | CIsVisible l => forget (is_visible_res E l)
  | CPrint _ => Returns tt
  | CClose => close_res E
  end.

(** Calls of steps 2 to 9 of the design: everything but the console
    lines and the closing of the browser. *)
Definition is_step_2_to_9 (c : call) : bool :=
  match c with CPrint _ | CClose => false | _ => true end.

(** Calls of steps 4 to 9: those made inside the [try] block. *)
Definition is_step_4_to_9 (c : call) : bool :=
  match c with
  | CGoto _ _ | CClick _ | CWaitForSelector _ | CScreenshot _
  | CIsVisible _ => true
  | _ => false
  end.


Definition is_screenshot (c : call) : bool :=
  match c with CScreenshot _ => true | _ => false end.

(** [s.startswith(p)] *)
Fixpoint starts_with (p s : string) : bool :=
  match p, s with
  | EmptyString, _ => true
  | String a p', String b s' => Ascii.eqb a b && starts_with p' s'
  | String _ _, EmptyString => false
  end.

Definition is_error_line (line : string) : bool := starts_with "Error: " line.

(** The session is started, the browser launched and the page opened:
    the run gets to the [try] statement. *)
Definition enters_try (E : env) : Prop :=
  start_res E = Returns tt /\ launch_res E true = Returns tt /\
  new_page_res E = Returns tt.

(** Steps 4 to 7 go through: the run gets to the label check. *)
Definition reaches_checks (E : env) : Prop :=
  enters_try E /\ goto_res E app_url nav_timeout = Returns tt /\
  click_res E new_novel_button = Returns tt /\
  wait_for_selector_res E modal_selector = Returns tt /\
  exists img, screenshot_res E shot_path = Returns img.

(** ** Playwright's contract for the calls whose arguments the claims
    discuss

    These definitions are not code of the script: they state, from
    Playwright's documentation, what [page.goto] does with its [timeout]
    and which elements a [get_by_role] locator denotes. *)

(** What answers at a URL: nothing (connection refused), or a page whose
    load takes [ms] milliseconds. *)
Inductive site : Type := Refused | LoadsIn (ms : Z).

(** [page.goto(url, timeout=t)]: raises [Error] when the connection is
    refused and [TimeoutError] when the load takes longer than [t] ms;
    [t = 0] disables the bound. *)
Definition pw_goto (net : string -> site) (url : string) (timeout : Z)
    : outcome unit :=
  match net url with
  | Refused =>
      Raises (Exc PlaywrightError
                ("Page.goto: net::ERR_CONNECTION_REFUSED at " +:+ url))
  | LoadsIn ms =>
      if ((timeout =? 0) || (ms <=? timeout))%Z then Returns tt
      else Raises (Exc PlaywrightTimeoutError "Page.goto: Timeout exceeded.")
  end.

(** An element of the page as accessibility sees it: its ARIA role and
    its accessible name. *)
Record element : Type := Element { el_role : string; el_name : string }.

Definition lower_ascii (c : ascii) : ascii :=
  let n := N_of_ascii c in
  if ((65 <=? n) && (n <=? 90))%N then ascii_of_N (n + 32) else c.

Fixpoint lower (s : string) : string :=
  match s with
  | EmptyString => EmptyString
  | String c t => String (lower_ascii c) (lower t)
  end.

(** [needle] occurs in [hay] *)
Fixpoint contains (needle hay : string) : bool :=
  starts_with needle hay ||
  match hay with
  | EmptyString => false
  | String _ t => contains needle t
  end.

(** The [name] option of [get_by_role]: with [exact=True] the accessible
    name must be that string, case-sensitively; otherwise (the default)
    the match is case-insensitive and on a substring. *)
Definition name_matches (exact : option bool) (name accessible : string) : bool :=
  if default false exact then String.eqb name accessible
  else contains (lower name) (lower accessible).

Definition role_matches (q : role_query) (el : element) : bool :=
  String.eqb (rq_role q) (el_role el) &&
  match rq_name q with
  | None => true
  | Some n => name_matches (rq_exact q) n (el_name el)
  end.

(** [locator.click()] on a role locator, on a page showing [dom]: it
    needs exactly one matching element; with none it gives up after its
    timeout, with several it is a strict-mode violation. *)
Definition pw_click_role (dom : list element) (q : role_query) : outcome unit :=
  match filter (fun el => role_matches q el = true) dom with
  | [] => Raises (Exc PlaywrightTimeoutError "Locator.click: Timeout exceeded.")
  | [_] => Returns tt
  | _ :: _ :: _ =>
      Raises (Exc PlaywrightError "Locator.click: strict mode violation")
  end.

(** ** Environments used as concrete inputs *)

Definition sample_png : png := [Byte.x89; Byte.x50; Byte.x4e; Byte.x47].

(** The browser binary is missing: [launch] raises. *)
Definition no_browser_error : exc :=
  Exc PlaywrightError "BrowserType.launch: Executable doesn't exist".

Definition launch_fails : env :=
  {| start_res := Returns tt; launch_res := fun _ => Raises no_browser_error;
     new_page_res := Returns tt; goto_res := fun _ _ => Returns tt;
     click_res := fun _ => Returns tt;
     wait_for_selector_res := fun _ => Returns tt;
     screenshot_res := fun _ => Returns sample_png;
     is_visible_res := fun _ => Returns true;
     close_res := Returns tt |}.

(** A network and a page: [goto] and [click] follow Playwright's
    contract on them, everything else goes through. *)
Definition browsing (net : string -> site) (dom : list element)
    (label_visible star_visible : bool) : env :=
  {| start_res := Returns tt; launch_res := fun _ => Returns tt;
     new_page_res := Returns tt; goto_res := pw_goto net;
     click_res := fun l =>
       match l with
       | ByRole q => pw_click_role dom q
       | _ => Returns tt
       end;
     wait_for_selector_res := fun _ => Returns tt;
     screenshot_res := fun _ => Returns sample_png;
     is_visible_res := fun l =>
       Returns (match l with
                | Within _ _ => star_visible
                | _ => label_visible
                end);
     close_res := Returns tt |}.

Definition nothing_listening : string -> site := fun _ => Refused.
Definition loads_in (ms : Z) : string -> site := fun _ => LoadsIn ms.

Definition import_button : element :=
  {| el_role := "button"; el_name := "Import new novels" |}.

(** A page whose only button is named "Import new novels". *)
Definition import_page : list element :=
  [ {| el_role := "heading"; el_name := "Library" |}; import_button ].

Definition home_page : list element :=
  [ {| el_role := "heading"; el_name := "Library" |};
    {| el_role := "button"; el_name := "New Novel" |} ].

Definition empty_page : list element :=
  [ {| el_role := "heading"; el_name := "Library" |} ].

(** The application is up, with label and marker visible. *)
Definition env_up : env := browsing (loads_in 5) home_page true true.
(** No server on port 3000. *)
Definition env_no_server : env := browsing nothing_listening home_page true true.
Definition connection_refused : exc :=
  Exc PlaywrightError
    "Page.goto: net::ERR_CONNECTION_REFUSED at http://localhost:3000".
(** The page takes 10001 ms to load. *)
Definition env_slow : env := browsing (loads_in 10001) home_page true true.
(** The page has no button at all. *)
Definition env_no_button : env := browsing (loads_in 5) empty_page true true.
(** The page has the "Import new novels" button only. *)
Definition env_import : env := browsing (loads_in 5) import_page true true.
(** The label is visible, the marker is not; and the converse. *)
Definition env_star_hidden : env := browsing (loads_in 5) home_page true false.
Definition env_label_hidden : env := browsing (loads_in 5) home_page false true.

(** The page cannot be opened: [new_page] raises. *)
Definition no_page_error : exc :=
  Exc PlaywrightError "Browser.new_page: Target closed".

Definition new_page_fails : env :=
  {| start_res := Returns tt; launch_res := fun _ => Returns tt;
     new_page_res := Raises no_page_error; goto_res := fun _ _ => Returns tt;
     click_res := fun _ => Returns tt;
     wait_for_selector_res := fun _ => Returns tt;
     screenshot_res := fun _ => Returns sample_png;
     is_visible_res := fun _ => Returns true;
     close_res := Returns tt |}.


(** ** Order of calls in a log *)

#[global] Instance role_query_eq_dec : EqDecision role_query.
Proof. solve_decision. Defined.

#[global] Instance locator_eq_dec : EqDecision locator.
Proof. solve_decision. Defined.

#[global] Instance call_eq_dec : EqDecision call.
Proof. solve_decision. Defined.

(** Every call selected by [q] has the call [a] somewhere before it. *)
Definition always_after (a : call) (q : call -> bool) (cs : list call) : Prop :=
  forall pre c post, cs = pre ++ c :: post -> q c = true -> In a pre.

(** The same, computed: [seen] tells whether [a] was met already. *)
Fixpoint after_check (a : call) (q : call -> bool) (seen : bool)
    (cs : list call) : bool :=
  match cs with
  | [] => true
  | c :: rest =>
      (if q c then seen else true) &&
      after_check a q (seen || bool_decide (c = a)) rest
  end.

(** A line selected by [p] can only be the last one. *)
Fixpoint only_last {A} (p : A -> bool) (l : list A) : bool :=
  match l with
  | [] => true
  | x :: rest =>
      (if p x then match rest with [] => true | _ => false end else true) &&
      only_last p rest
  end.

(** The screenshot call or its confirmation line. *)
Definition is_shot_or_line (c : call) : bool :=
  match c with
  | CScreenshot _ => true
  | CPrint s => String.eqb s shot_line
  | _ => false
  end.

Definition is_modal_wait (c : call) : bool :=
  bool_decide (c = CWaitForSelector modal_selector).

Definition is_shot_line (c : call) : bool :=
  bool_decide (c = CPrint shot_line).

(** A screenshot call goes to the fixed path. *)
Definition shot_to_fixed_path (c : call) : bool :=
  match c with CScreenshot p => String.eqb p shot_path | _ => true end.

(** ** Further readings of a run and further inputs *)

(** The steps of the routine on the browser and the page, in the order
    of the source. *)
Definition script_steps : list call :=
  [ CLaunch true; CNewPage; CGoto app_url nav_timeout;
    CClick new_novel_button; CWaitForSelector modal_selector;
    CScreenshot shot_path; CIsVisible label_locator;
    CIsVisible star_locator ].

(** What the log holds after the call [c]. *)
Fixpoint calls_after (c : call) (cs : list call) : list call :=
  match cs with
  | [] => []
  | x :: rest => if bool_decide (x = c) then rest else calls_after c rest
  end.

(** An environment given by the answer of each call site. *)
Definition scripted (start launch newp nav clk wt : outcome unit)
    (shot : outcome png) (label star : outcome bool)
    (cls : outcome unit) : env :=
  {| start_res := start; launch_res := fun _ => launch;
     new_page_res := newp; goto_res := fun _ _ => nav;
     click_res := fun _ => clk; wait_for_selector_res := fun _ => wt;
     screenshot_res := fun _ => shot;
     is_visible_res := fun l =>
       match l with Within _ _ => star | _ => label end;
     close_res := cls |}.

Definition ok : outcome unit := Returns tt.

Definition interrupt : exc := Exc KeyboardInterrupt "".
Definition driver_missing : exc :=
  Exc OtherException "Playwright driver not found".
Definition strict_violation : exc :=
  Exc PlaywrightError "Locator.is_visible: strict mode violation".
Definition close_failed : exc :=
  Exc PlaywrightError "Browser.close: Connection closed".

(** Ctrl-C during navigation. *)
Definition env_interrupted : env :=
  scripted ok ok ok (Raises interrupt) ok ok (Returns sample_png)
    (Returns true) (Returns true) ok.
(** The driver does not start. *)
Definition env_no_driver : env :=
  scripted (Raises driver_missing) ok ok ok ok ok (Returns sample_png)
    (Returns true) (Returns true) ok.
(** Two labels match the label selector. *)
Definition env_two_labels : env :=
  scripted ok ok ok ok ok ok (Returns sample_png)
    (Raises strict_violation) (Returns true) ok.
(** Everything goes through but closing the browser. *)
Definition env_close_fails : env :=
  scripted ok ok ok ok ok ok (Returns sample_png)
    (Returns true) (Returns true) (Raises close_failed).

(** ** Standard output and the text selector *)

(** How a logged call was answered on the standard output [out]. *)
Definition answer_on (out : stdout) (E : env) (c : call) : outcome unit :=
  match c with
  | CPrint line => out line
  | _ => answer E c
  end.

(** The [print] of the [except] clause, and the other prints. *)
Definition is_error_print (c : call) : bool :=
  match c with CPrint line => is_error_line line | _ => false end.

Definition is_confirmation_print (c : call) : bool :=
  match c with CPrint line => negb (is_error_line line) | _ => false end.

(** A console that cannot encode anything beyond ASCII. *)
Fixpoint is_ascii_text (s : string) : bool :=
  match s with
  | EmptyString => true
  | String c rest => (N_of_ascii c <? 128)%N && is_ascii_text rest
  end.

Definition encode_error : exc :=
  Exc OtherException "'ascii' codec can't encode character".

Definition ascii_console : stdout :=
  fun text => if is_ascii_text text then Returns tt else Raises encode_error.

(** Playwright's [text=] selector: a body in quotes asks for that very
    text, a bare body for a text containing it in any letter case.
    (From Playwright's documentation, as [name_matches] above; white
    space is taken as normalised.) *)
Inductive text_query : Type :=
| TextContains (body : string)
| TextExact (body : string).

Definition is_quote (c : ascii) : bool :=
  Ascii.eqb c "034"%char || Ascii.eqb c "039"%char.

Fixpoint string_drop (n : nat) (s : string) : string :=
  match n, s with
  | O, _ => s
  | S n', String _ rest => string_drop n' rest
  | S _, EmptyString => EmptyString
  end.

(** A non-empty string as all but its last character, and the last. *)
Fixpoint split_last (s : string) : option (string * ascii) :=
  match s with
  | EmptyString => None
  | String c rest =>
      match split_last rest with
      | None => Some (EmptyString, c)
      | Some (init, l) => Some (String c init, l)
      end
  end.

Definition unquote (body : string) : option string :=
  match body with
  | EmptyString => None
  | String q rest =>
      if is_quote q then
        match split_last rest with
        | Some (inner, l) => if Ascii.eqb l q then Some inner else None
        | None => None
        end
      else None
  end.

Definition text_selector (selector : string) : option text_query :=
  if starts_with "text=" selector then
    let body := string_drop 5 selector in
    Some match unquote body with
         | Some inner => TextExact inner
         | None => TextContains body
         end
  else None.

Definition text_matches (q : text_query) (text : string) : bool :=
  match q with
  | TextContains body => contains (lower body) (lower text)
  | TextExact body => String.eqb body text
  end.

(** [page.wait_for_selector] on a text selector, on a page that comes to
    show the texts [texts]: it returns once an element matches, and gives
    up after its timeout when none does. *)
Definition pw_wait_for_text (texts : list string) (q : text_query)
    : outcome unit :=
  if existsb (text_matches q) texts then Returns tt
  else Raises (Exc PlaywrightTimeoutError
                 "Page.wait_for_selector: Timeout exceeded.").

(** The environment waits as Playwright does, on a page showing [texts]. *)
Definition waits_on (E : env) (texts : list string) : Prop :=
  forall selector q, text_selector selector = Some q ->
    wait_for_selector_res E selector = pw_wait_for_text texts q.

(** [E], on a page that shows [texts] after the click. *)
Definition showing (texts : list string) (E : env) : env :=
  {| start_res := start_res E; launch_res := launch_res E;
     new_page_res := new_page_res E; goto_res := goto_res E;
     click_res := click_res E;
     wait_for_selector_res := fun selector =>
       match text_selector selector with
       | Some q => pw_wait_for_text texts q
       | None => wait_for_selector_res E selector
       end;
     screenshot_res := screenshot_res E;
     is_visible_res := is_visible_res E;
     close_res := close_res E |}.

(** The modal is titled in capitals; and as the source has it. *)
Definition env_capitals : env := showing ["Library"; "START A NEW NOVEL"] env_up.
Definition env_modal : env := showing ["Library"; "Start a New Novel"] env_up.

(** A timeout as Playwright words it, with its call log. *)
Definition nl : string := String "010"%char EmptyString.

Definition timeout_with_log : exc :=
  Exc PlaywrightTimeoutError
    ("Page.goto: Timeout 10000ms exceeded." +:+ nl +:+ "Call log:" +:+ nl +:+
     "  - navigating to http://localhost:3000/").

Definition env_timeout_logged : env :=
  scripted ok ok ok (Raises timeout_with_log) ok ok (Returns sample_png)
    (Returns true) (Returns true) ok.

(** A message the ASCII console cannot take. *)
Definition accented_error : exc :=
  Exc PlaywrightError
    ("caf" +:+ String "195"%char (String "169"%char EmptyString)).

Definition env_accented : env :=
  scripted ok ok ok (Raises accented_error) ok ok (Returns sample_png)
    (Returns true) (Returns true) ok.

(** ** The claims that do not hold as worded, as propositions *)

(** Every exception raised by a call of steps 2 to 9 is reported on the
    console and the run returns normally. *)
Definition all_step_errors_caught : Prop :=
  forall (E : env) (fs : gmap string png) (c : call) (e : exc),
    In c (calls (snd (run E fs))) -> is_step_2_to_9 c = true ->
    answer E c = Raises e ->
    fst (run E fs) = Returns tt /\
    In (error_line e) (console (snd (run E fs))).

(** The button locator denotes only elements named exactly "New Novel". *)
Definition button_name_is_exact : Prop :=
  forall el : element,
    role_matches new_novel_query el = true -> el_name el = "New Novel".

(** The screenshot is taken only once an element holds, letter for
    letter, the text "Start a New Novel". *)
Definition waits_for_exact_text : Prop :=
  forall (E : env) (texts : list string) (fs : gmap string png),
    waits_on E texts ->
    In (CScreenshot shot_path) (calls (snd (run E fs))) ->
    exists text, In text texts /\ contains "Start a New Novel" text = true.

(** A console line starting with "Error: " is the last line. *)
Definition error_line_ends_console : Prop :=
  forall (E : env) (fs : gmap string png) (pre : list string)
         (line : string) (post : list string),
    console_lines (snd (run E fs)) = pre ++ line :: post ->
    is_error_line line = true -> post = [].

(** * Proofs *)

#[local] Arguments String.append !s1 s2.

(** ** Symbolic execution of a run *)

Ltac unfold_names :=
  unfold enters_try, reaches_checks, app_url, nav_timeout, new_novel_button,
    new_novel_query, modal_selector, shot_path, star_locator,
    label_locator in *.

Ltac unfold_script :=
  unfold run, run_on, accepting, stop_driver, verify_project_modal, with_, try_finally, try_except,
    sync_playwright_enter, sync_playwright_exit, chromium_launch, new_page,
    goto, click, wait_for_selector, screenshot, is_visible, print,
    browser_close, when, api, modify, get_by_role, page_locator,
    locator_locator, mbind, M_bind, mret, M_ret, fresh.

(** Follow the run along the answers of the environment: an answer known
    from a hypothesis is used, any other gives one case per outcome. *)
Ltac follow_run :=
  repeat (cbn;
    match goal with
    | H : ?x = Returns _ |- context [match ?x with Returns _ => _ | Raises _ => _ end] =>
        rewrite H
    | H : ?x = Raises _ |- context [match ?x with Returns _ => _ | Raises _ => _ end] =>
        rewrite H
    | H : is_Exception ?e = _ |- context [if is_Exception ?e then _ else _] =>
        rewrite H
    | |- context [match ?r with Returns _ => _ | Raises _ => _ end] =>
        destruct r eqn:?
    | |- context [if is_Exception ?e then _ else _] =>
        destruct (is_Exception e) eqn:?
    | |- context [if ?b then _ else _] => is_var b; destruct b
    end).

(** Name the result and the final world of the run in the goal, and split
    the goal by the paths of the script. *)
Ltac run_cases :=
  unfold_names;
  match goal with
  | |- context [run ?E ?fs] =>
      let r := fresh "r" in
      let w := fresh "w" in
      let H := fresh "Hrun" in
      destruct (run E fs) as [r w] eqn:H; revert H;
      unfold_script; follow_run;
      intros H; injection H as <- <-; cbn in *
  end.

(** The same, without computing in the goal beyond the projections. *)
Ltac run_paths :=
  unfold_names;
  match goal with
  | |- context [run ?E ?fs] =>
      let r := fresh "r" in
      let w := fresh "w" in
      let H := fresh "Hrun" in
      destruct (run E fs) as [r w] eqn:H; revert H;
      unfold_script; follow_run;
      intros H; injection H as <- <-;
      cbn [fst snd calls files browser_state session_running]
  end.

Ltac use_answers :=
  repeat match goal with
  | u : unit |- _ => destruct u
  | H : ?x = Returns _, H' : ?x = Raises _ |- _ => congruence
  | H : ?x = Raises _, H' : ?x = Raises _ |- _ =>
      rewrite H in H'; injection H' as ->
  | H : ?x = _, H' : forget ?x = _ |- _ => rewrite H in H'; simpl in H'
  | H : Raises _ = Raises _ |- _ => injection H as ->
  end.

(** As [use_answers], closing contradictory answers without looking at
    the goal. *)
Ltac settle_answers :=
  repeat match goal with
  | u : unit |- _ => destruct u
  | H : ?x = Returns _, H' : ?x = Raises _ |- _ =>
      exfalso; rewrite H in H'; discriminate H'
  | H : ?x = Raises _, H' : ?x = Raises _ |- _ =>
      rewrite H in H'; injection H' as ->
  | H : ?x = _, H' : forget ?x = _ |- _ => rewrite H in H'; simpl in H'
  | H : Raises _ = Raises _ |- _ => injection H as ->
  end.

(** The same two tactics for a run on any standard output. *)
Ltac run_on_cases :=
  unfold_names;
  match goal with
  | |- context [run_on ?out ?E ?fs] =>
      let r := fresh "r" in
      let w := fresh "w" in
      let H := fresh "Hrun" in
      destruct (run_on out E fs) as [r w] eqn:H; revert H;
      unfold_script; follow_run;
      intros H; injection H as <- <-; cbn in *
  end.

Ltac run_on_paths :=
  unfold_names;
  match goal with
  | |- context [run_on ?out ?E ?fs] =>
      let r := fresh "r" in
      let w := fresh "w" in
      let H := fresh "Hrun" in
      destruct (run_on out E fs) as [r w] eqn:H; revert H;
      unfold_script; follow_run;
      intros H; injection H as <- <-;
      cbn [fst snd calls files browser_state session_running]
  end.

Ltac find_in_log := cbn; repeat (first [left; reflexivity | right]).

(** Split a membership in a concrete log into its calls. *)
Ltac each_call H :=
  repeat (destruct H as [<- | H]); try contradiction.

(** The same, keeping each equation as [H]. *)
Ltac each_eq H :=
  repeat match type of H with _ \/ _ => destruct H as [H | H] end;
  try contradiction; try discriminate H.

(** ** Lists of calls and lines *)

Lemma after_check_sound (a : call) (q : call -> bool) (cs : list call) :
  after_check a q false cs = true -> always_after a q cs.
Proof.
  enough (G : forall seen, after_check a q seen cs = true ->
              forall pre c post, cs = pre ++ c :: post -> q c = true ->
                seen = true \/ In a pre).
  { intros H pre c post Hcs Hq.
    destruct (G false H pre c post Hcs Hq) as [Hs | Hin];
      [discriminate Hs | exact Hin]. }
  induction cs as [| x rest IH]; intros seen Hchk pre c post Hcs Hq.
  - destruct pre; discriminate Hcs.
  - cbn in Hchk. apply andb_true_iff in Hchk as [Hhere Hrest].
    destruct pre as [| y pre'].
    + injection Hcs as -> ->. rewrite Hq in Hhere. left; exact Hhere.
    + injection Hcs as -> ->.
      destruct (IH _ Hrest pre' c post eq_refl Hq) as [Hs | Hin].
      * apply orb_true_iff in Hs as [Hs | Hs]; [left; exact Hs |].
        apply bool_decide_eq_true in Hs. right; left; exact Hs.
      * right; right; exact Hin.
Qed.

Lemma only_last_sound {A} (p : A -> bool) (l : list A) :
  only_last p l = true ->
  forall pre x post, l = pre ++ x :: post -> p x = true -> post = [].
Proof.
  induction l as [| y rest IH]; intros Hchk pre x post Hl Hp.
  - destruct pre; discriminate Hl.
  - cbn in Hchk. apply andb_true_iff in Hchk as [Hhere Hrest].
    destruct pre as [| z pre'].
    + injection Hl as -> ->. rewrite Hp in Hhere.
      destruct post; [reflexivity | discriminate Hhere].
    + injection Hl as -> ->. exact (IH Hrest pre' x post eq_refl Hp).
Qed.

Lemma only_last_count {A} (p : A -> bool) (l : list A) :
  only_last p l = true -> (length (List.filter p l) <= 1)%nat.
Proof.
  induction l as [| y rest IH]; intros Hchk; cbn in *; [lia |].
  apply andb_true_iff in Hchk as [Hhere Hrest].
  destruct (p y); [| exact (IH Hrest)].
  destruct rest; [cbn; lia | discriminate Hhere].
Qed.

Lemma in_split_existsb {A} (p : A -> bool) (l pre post : list A) (x : A) :
  l = pre ++ x :: post -> p x = true -> existsb p l = true.
Proof.
  intros -> Hp. rewrite existsb_app. cbn. rewrite Hp.
  rewrite orb_true_r. reflexivity.
Qed.

Lemma in_split_forallb {A} (p : A -> bool) (l pre post : list A) (x : A) :
  forallb p l = true -> l = pre ++ x :: post -> p x = true.
Proof.
  intros Hall ->. rewrite forallb_app in Hall.
  apply andb_true_iff in Hall as [_ Hall]. cbn in Hall.
  apply andb_true_iff in Hall as [Hx _]. exact Hx.
Qed.

Lemma filter_none {A} (p : A -> bool) (l : list A) :
  (forall x, In x l -> p x = false) ->
  filter (fun x => p x = true) l = [].
Proof.
  induction l as [| y rest IH]; intros Hall; [reflexivity |].
  rewrite filter_cons. rewrite (Hall y (or_introl eq_refl)).
  destruct (decide (false = true)) as [Hf | _]; [discriminate Hf |].
  apply IH. intros x Hx. apply Hall. right; exact Hx.
Qed.

(** ** The run does not read the file system *)

Lemma run_independent_of_files (E : env) (fs fs' : gmap string png) :
  fst (run E fs) = fst (run E fs') /\
  calls (snd (run E fs)) = calls (snd (run E fs')).
Proof.
  unfold_script; follow_run; split; reflexivity.
Qed.

(** ** Steps 10 and 11: the handler and the cleanup *)

(** C1, as amended.  An exception raised by a call inside the [try] block
    (steps 4 to 9: navigation, click, modal wait, screenshot, label
    check, required-marker check) that is an instance of [Exception] is
    caught: the handler prints its message, prefixed with "Error: ", as
    the last text of the run, and once that [print] and [browser.close()]
    have returned the run returns normally. *)
Theorem try_block_error_is_reported (out : stdout) (E : env)
    (fs : gmap string png) (c : call) (e : exc) :
  In c (calls (snd (run_on out E fs))) -> is_step_4_to_9 c = true ->
  answer E c = Raises e -> is_Exception e = true ->
  last (console (snd (run_on out E fs))) = Some (error_line e) /\
  (out (error_line e) = Returns tt -> close_res E = Returns tt ->
   fst (run_on out E fs) = Returns tt).
Proof.
  run_on_cases; intros Hin Hstep Hans Hexc; each_call Hin;
    try discriminate Hstep; simpl in Hans; settle_answers;
    try discriminate; try congruence;
    (split; [reflexivity | intros; settle_answers; congruence]).
Qed.

Lemma try_block_error_is_reported_witness :
  last (console (snd (run_on ascii_console env_no_server ∅))) =
    Some (error_line connection_refused) /\
  (ascii_console (error_line connection_refused) = Returns tt ->
   close_res env_no_server = Returns tt ->
   fst (run_on ascii_console env_no_server ∅) = Returns tt).
Proof.
  apply (try_block_error_is_reported ascii_console env_no_server ∅
           (CGoto app_url nav_timeout) connection_refused).
  - vm_compute. right; right; left; reflexivity.
  - reflexivity.
  - reflexivity.
  - reflexivity.
Defined.

(** C1, as worded, fails: [launch] (step 2) is called before the [try]
    statement, so when it raises, nothing is printed and the exception
    leaves the routine. *)
Lemma launch_error_propagates :
  In (CLaunch true) (calls (snd (run launch_fails ∅))) /\
  is_step_2_to_9 (CLaunch true) = true /\
  answer launch_fails (CLaunch true) = Raises no_browser_error /\
  fst (run launch_fails ∅) = Raises no_browser_error /\
  console (snd (run launch_fails ∅)) = [] /\
  ~ all_step_errors_caught.
Proof.
  assert (Hin : In (CLaunch true) (calls (snd (run launch_fails ∅))))
    by (vm_compute; left; reflexivity).
  repeat split; try assumption; try reflexivity.
  intros H.
  destruct (H launch_fails ∅ (CLaunch true) no_browser_error Hin
              eq_refl eq_refl) as [Hret _].
  discriminate Hret.
Qed.




(** X6.  However a run ends, by returning or by raising at any point,
    the session of [with sync_playwright()] is left when it ends. *)
Lemma session_always_torn_down (E : env) (fs : gmap string png) :
  session_running (snd (run E fs)) = false.
Proof. run_paths; reflexivity. Qed.

(** C3.  When nothing listens on port 3000, navigation raises a
    Playwright error; then one line starting with "Error: " is printed,
    no screenshot is taken and the file system is left as it was, and the
    run returns normally with the browser closed. *)
Theorem no_server_is_reported (E : env) (fs : gmap string png) (e : exc) :
  enters_try E ->
  goto_res E app_url nav_timeout = Raises e -> is_Exception e = true ->
  close_res E = Returns tt ->
  fst (run E fs) = Returns tt /\
  (exists line, In line (console (snd (run E fs))) /\
                is_error_line line = true) /\
  existsb is_screenshot (calls (snd (run E fs))) = false /\
  files (snd (run E fs)) = fs /\
  browser_state (snd (run E fs)) = Closed.
Proof.
  intros (Hs & Hl & Hn) Hgoto Hexc Hclose. run_cases.
  repeat split.
  exists ("Error: " +:+ exc_str e). split; [left; reflexivity | reflexivity].
Qed.

Lemma no_server_is_reported_witness :
  fst (run env_no_server ∅) = Returns tt /\
  (exists line, In line (console (snd (run env_no_server ∅))) /\
                is_error_line line = true) /\
  existsb is_screenshot (calls (snd (run env_no_server ∅))) = false /\
  files (snd (run env_no_server ∅)) = ∅ /\
  browser_state (snd (run env_no_server ∅)) = Closed.
Proof.
  apply (no_server_is_reported env_no_server ∅ connection_refused).
  - repeat split; reflexivity.
  - reflexivity.
  - reflexivity.
  - reflexivity.
Defined.

(** ** Step 5: the button locator *)

Lemma role_matches_new_novel (el : element) :
  role_matches new_novel_query el = true <->
  el_role el = "button" /\
  contains "new novel" (lower (el_name el)) = true.
Proof.
  unfold role_matches, name_matches.
  change (rq_role new_novel_query) with "button".
  change (rq_name new_novel_query) with (Some "New Novel").
  change (default false (rq_exact new_novel_query)) with false.
  change (lower "New Novel") with "new novel". cbv iota.
  rewrite andb_true_iff, String.eqb_eq.
  split; intros [Hr Hn]; (split; [congruence | exact Hn]).
Qed.

(** C4, as amended.  Step 5 clicks the locator built from the role
    "button" and the name "New Novel" with no [exact] argument; under
    Playwright's default that locator denotes the buttons whose accessible
    name contains "new novel" in any letter case.  When the page has no
    such element the click raises, the handler prints the error and the
    modal wait is not reached. *)
Theorem click_targets_new_novel_by_substring (E : env)
    (dom : list element) (fs : gmap string png) :
  (forall q, click_res E (ByRole q) = pw_click_role dom q) ->
  (forall l, In (CClick l) (calls (snd (run E fs))) ->
     l = ByRole {| rq_role := "button"; rq_name := Some "New Novel";
                   rq_exact := None |}) /\
  (forall el, role_matches new_novel_query el = true <->
     el_role el = "button" /\
     contains "new novel" (lower (el_name el)) = true) /\
  (enters_try E -> goto_res E app_url nav_timeout = Returns tt ->
   (forall el, In el dom -> role_matches new_novel_query el = false) ->
   exists e,
     click_res E new_novel_button = Raises e /\ is_Exception e = true /\
     console (snd (run E fs)) = [error_line e] /\
     ~ In (CWaitForSelector modal_selector) (calls (snd (run E fs)))).
Proof.
  intros Hclick. split; [| split].
  - intros l. run_cases; intros Hin; each_eq Hin;
      injection Hin as <-; reflexivity.
  - exact role_matches_new_novel.
  - intros (Hs & Hl & Hn) Hgoto Hnone.
    assert (Hc : click_res E new_novel_button =
                 Raises (Exc PlaywrightTimeoutError
                           "Locator.click: Timeout exceeded.")).
    { unfold new_novel_button. rewrite Hclick. unfold pw_click_role.
      rewrite (filter_none _ _ Hnone). reflexivity. }
    eexists. split; [exact Hc |]. split; [reflexivity |].
    clear Hclick Hnone.
    run_cases; (split; [reflexivity | intros Hin; each_eq Hin]).
Qed.

Lemma click_targets_new_novel_by_substring_witness :
  exists e,
    click_res env_no_button new_novel_button = Raises e /\
    is_Exception e = true /\
    console (snd (run env_no_button ∅)) = [error_line e] /\
    ~ In (CWaitForSelector modal_selector)
         (calls (snd (run env_no_button ∅))).
Proof.
  apply (click_targets_new_novel_by_substring env_no_button empty_page ∅).
  - intros q. reflexivity.
  - repeat split; reflexivity.
  - reflexivity.
  - intros el [<- | []]. reflexivity.
Defined.

(** C4, as worded, fails: on a page whose only button is named
    "Import new novels" no element is named "New Novel", yet the locator
    of step 5 matches that button, the click goes through and the run
    goes on to the screenshot instead of failing. *)
Lemma inexact_button_is_clicked :
  Forall (fun x => el_name x <> "New Novel") import_page /\
  role_matches new_novel_query import_button = true /\
  click_res env_import new_novel_button = Returns tt /\
  fst (run env_import ∅) = Returns tt /\
  console (snd (run env_import ∅)) = [shot_line; label_line; star_line] /\
  ~ button_name_is_exact.
Proof.
  split; [| split; [| split; [| split; [| split]]]].
  - repeat constructor; discriminate.
  - reflexivity.
  - reflexivity.
  - reflexivity.
  - reflexivity.
  - intros H.
    specialize (H import_button eq_refl).
    discriminate H.
Qed.

(** ** Steps 6 and 7: the modal wait and the screenshot *)

Lemma run_order (E : env) (fs : gmap string png) :
  after_check (CWaitForSelector modal_selector) is_shot_or_line false
    (calls (snd (run E fs))) = true /\
  after_check (CClick new_novel_button) is_modal_wait false
    (calls (snd (run E fs))) = true /\
  after_check (CScreenshot shot_path) is_shot_line false
    (calls (snd (run E fs))) = true /\
  forallb shot_to_fixed_path (calls (snd (run E fs))) = true /\
  (existsb is_shot_or_line (calls (snd (run E fs))) = true ->
   wait_for_selector_res E modal_selector = Returns tt).
Proof.
  run_paths; use_answers; repeat split;
    try (vm_compute; reflexivity);
    try (intros _; assumption);
    vm_compute; intros Hf; discriminate Hf.
Qed.

(** The screenshot call and its confirmation line come only after the
    call of [wait_for_selector], which itself follows the click and has
    returned; the screenshot goes to the fixed path, replaces the file at
    that path, and its line is printed after it. *)
Lemma screenshot_follows_wait_call (E : env) (fs : gmap string png) :
  (forall pre c post,
     calls (snd (run E fs)) = pre ++ c :: post -> is_shot_or_line c = true ->
     In (CWaitForSelector modal_selector) pre /\
     wait_for_selector_res E modal_selector = Returns tt /\
     shot_to_fixed_path c = true) /\
  always_after (CClick new_novel_button) is_modal_wait
    (calls (snd (run E fs))) /\
  always_after (CScreenshot shot_path) is_shot_line
    (calls (snd (run E fs))) /\
  (enters_try E -> goto_res E app_url nav_timeout = Returns tt ->
   click_res E new_novel_button = Returns tt ->
   wait_for_selector_res E modal_selector = Returns tt ->
   In (CScreenshot shot_path) (calls (snd (run E fs))) /\
   forall img, screenshot_res E shot_path = Returns img ->
     files (snd (run E fs)) = <[shot_path := img]> fs /\
     In shot_line (console (snd (run E fs)))).
Proof.
  destruct (run_order E fs) as (Hwait & Hclick & Hshot & Hpath & Hret).
  split; [| split; [| split]].
  - intros pre c post Hcs Hc. split; [| split].
    + exact (after_check_sound _ _ _ Hwait pre c post Hcs Hc).
    + apply Hret. exact (in_split_existsb _ _ pre post c Hcs Hc).
    + exact (in_split_forallb _ _ pre post c Hpath Hcs).
  - exact (after_check_sound _ _ _ Hclick).
  - exact (after_check_sound _ _ _ Hshot).
  - clear. intros (Hs & Hl & Hn) Hgoto Hc Hw. split.
    + run_cases; right; right; right; right; right; left; reflexivity.
    + intros img Himg. run_cases; (split; [reflexivity | left; reflexivity]).
Qed.

Lemma showing_waits (texts : list string) (E : env) :
  waits_on (showing texts E) texts.
Proof.
  intros selector q Hq. cbn. rewrite Hq. reflexivity.
Qed.

Lemma modal_wait_returns_iff (E : env) (texts : list string) :
  waits_on E texts ->
  wait_for_selector_res E modal_selector = Returns tt <->
  exists text, In text texts /\
               contains "start a new novel" (lower text) = true.
Proof.
  intros Hwait.
  rewrite (Hwait modal_selector (TextContains "Start a New Novel") eq_refl).
  unfold pw_wait_for_text.
  destruct (existsb (text_matches (TextContains "Start a New Novel")) texts)
    eqn:Hany.
  - split; [intros _ | reflexivity].
    apply existsb_exists in Hany as (text & Hin & Hm).
    exists text. split; [exact Hin | exact Hm].
  - split; [discriminate |]. intros (text & Hin & Hm).
    assert (Hyes : existsb (text_matches (TextContains "Start a New Novel"))
                     texts = true)
      by (apply existsb_exists; exists text; split; [exact Hin | exact Hm]).
    congruence.
Qed.

(** C5, as amended.  The selector [text=Start a New Novel] is unquoted,
    so the wait is for an element whose text contains "start a new novel"
    in any letter case.  The screenshot call and its confirmation line
    come only after that wait, which follows the click, and only if such
    an element has appeared; the screenshot goes to the fixed path,
    replaces the file there, and its line is printed after it.  Whenever
    such an element appears, the screenshot is taken. *)
Theorem screenshot_waits_for_modal_text (E : env) (texts : list string)
    (fs : gmap string png) :
  waits_on E texts ->
  text_selector "text=Start a New Novel" =
    Some (TextContains "Start a New Novel") /\
  (forall pre c post,
     calls (snd (run E fs)) = pre ++ c :: post -> is_shot_or_line c = true ->
     In (CWaitForSelector "text=Start a New Novel") pre /\
     (exists text, In text texts /\
                   contains "start a new novel" (lower text) = true) /\
     shot_to_fixed_path c = true) /\
  always_after (CClick new_novel_button) is_modal_wait
    (calls (snd (run E fs))) /\
  always_after (CScreenshot shot_path) is_shot_line
    (calls (snd (run E fs))) /\
  (enters_try E -> goto_res E app_url nav_timeout = Returns tt ->
   click_res E new_novel_button = Returns tt ->
   (exists text, In text texts /\
                 contains "start a new novel" (lower text) = true) ->
   In (CScreenshot shot_path) (calls (snd (run E fs))) /\
   forall img, screenshot_res E shot_path = Returns img ->
     files (snd (run E fs)) = <[shot_path := img]> fs /\
     In shot_line (console (snd (run E fs)))).
Proof.
  intros Hwait.
  destruct (screenshot_follows_wait_call E fs)
    as (Hafter & Hclick & Hshot & Hlive).
  split; [reflexivity |]. split; [| split; [exact Hclick | split]].
  - intros pre c post Hcs Hc.
    destruct (Hafter pre c post Hcs Hc) as (Hin & Hret & Hpath).
    split; [exact Hin | split; [| exact Hpath]].
    apply (modal_wait_returns_iff E texts Hwait). exact Hret.
  - exact Hshot.
  - intros Htry Hgoto Hc Htext. apply Hlive; try assumption.
    apply (modal_wait_returns_iff E texts Hwait). exact Htext.
Qed.

Lemma screenshot_waits_for_modal_text_witness :
  In (CScreenshot shot_path) (calls (snd (run env_modal ∅))) /\
  forall img, screenshot_res env_modal shot_path = Returns img ->
    files (snd (run env_modal ∅)) = <[shot_path := img]> ∅ /\
    In shot_line (console (snd (run env_modal ∅))).
Proof.
  apply (screenshot_waits_for_modal_text env_modal
           ["Library"; "Start a New Novel"] ∅).
  - apply showing_waits.
  - repeat split; reflexivity.
  - reflexivity.
  - reflexivity.
  - exists "Start a New Novel". split; [right; left; reflexivity | reflexivity].
Defined.

(** C5, as worded, fails: on a page whose modal is titled
    "START A NEW NOVEL" no element holds the text "Start a New Novel"
    letter for letter, yet the wait returns and the screenshot is taken
    and announced. *)
Lemma capitals_modal_is_accepted :
  waits_on env_capitals ["Library"; "START A NEW NOVEL"] /\
  Forall (fun text => contains "Start a New Novel" text = false)
    ["Library"; "START A NEW NOVEL"] /\
  In (CScreenshot shot_path) (calls (snd (run env_capitals ∅))) /\
  console (snd (run env_capitals ∅)) = [shot_line; label_line; star_line] /\
  ~ waits_for_exact_text.
Proof.
  assert (Hw : waits_on env_capitals ["Library"; "START A NEW NOVEL"])
    by apply showing_waits.
  assert (Hin : In (CScreenshot shot_path) (calls (snd (run env_capitals ∅))))
    by (vm_compute; do 5 right; left; reflexivity).
  split; [exact Hw |]. split; [repeat constructor |].
  split; [exact Hin |]. split; [reflexivity |].
  intros H. destruct (H env_capitals _ ∅ Hw Hin) as (text & Htext & Hc).
  destruct Htext as [<- | [<- | []]]; discriminate Hc.
Qed.

(** ** Steps 8 and 9: the label and the required marker *)

(** A line is on the console only if the answer on the right was yes. *)
Ltac line_needs_yes :=
  let H := fresh "Hin" in
  intros H; first [reflexivity | cbn in H; each_eq H].

Ltac find_in_list := cbn; repeat (first [left; reflexivity | right]).

(** C6.  Once the screenshot is taken, step 8 asks whether
    [label[for='new-book-title']] is visible and prints its line exactly
    when the answer is yes; step 9 asks the same of [.text-red-400] inside
    that label and prints its line exactly when the answer is yes. *)
Theorem confirmation_lines_iff_visible (E : env) (fs : gmap string png) :
  reaches_checks E ->
  In (CIsVisible (Css "label[for='new-book-title']"))
     (calls (snd (run E fs))) /\
  (In label_line (console (snd (run E fs))) <->
   is_visible_res E label_locator = Returns true) /\
  (forall b, is_visible_res E label_locator = Returns b ->
     In (CIsVisible (Within (Css "label[for='new-book-title']")
                       ".text-red-400"))
        (calls (snd (run E fs))) /\
     (In star_line (console (snd (run E fs))) <->
      is_visible_res E star_locator = Returns true)).
Proof.
  intros ((Hs & Hl & Hn) & Hgoto & Hc & Hw & img & Himg).
  split; [| split].
  - run_cases; do 7 right; left; reflexivity.
  - run_cases; (split; [line_needs_yes
                       | first [discriminate | intros _; find_in_list]]).
  - intros b Hb. split.
    + run_cases; find_in_list.
    + run_cases; (split; [line_needs_yes
                         | first [discriminate | intros _; find_in_list]]).
Qed.

Lemma confirmation_lines_iff_visible_witness :
  In (CIsVisible (Css "label[for='new-book-title']"))
     (calls (snd (run env_star_hidden ∅))) /\
  (In label_line (console (snd (run env_star_hidden ∅))) <->
   is_visible_res env_star_hidden label_locator = Returns true) /\
  (forall b, is_visible_res env_star_hidden label_locator = Returns b ->
     In (CIsVisible (Within (Css "label[for='new-book-title']")
                       ".text-red-400"))
        (calls (snd (run env_star_hidden ∅))) /\
     (In star_line (console (snd (run env_star_hidden ∅))) <->
      is_visible_res env_star_hidden star_locator = Returns true)).
Proof.
  apply (confirmation_lines_iff_visible env_star_hidden ∅).
  repeat split; try reflexivity. exists sample_png. reflexivity.
Defined.

(** C9.  The required-marker check does not depend on the label check:
    when the label is reported not visible, its line is not printed, and
    the very next call is the visibility test of the marker locator. *)
Theorem marker_checked_when_label_hidden (E : env) (fs : gmap string png) :
  reaches_checks E ->
  is_visible_res E label_locator = Returns false ->
  ~ In label_line (console (snd (run E fs))) /\
  exists pre post,
    calls (snd (run E fs)) =
      pre ++ CIsVisible label_locator :: CIsVisible star_locator :: post.
Proof.
  intros ((Hs & Hl & Hn) & Hgoto & Hc & Hw & img & Himg) Hlabel.
  split.
  - run_cases; intros Hin; each_eq Hin.
  - exists [CLaunch true; CNewPage; CGoto app_url nav_timeout;
            CClick new_novel_button; CWaitForSelector modal_selector;
            CScreenshot shot_path; CPrint shot_line].
    run_cases; eexists; reflexivity.
Qed.

Lemma marker_checked_when_label_hidden_witness :
  ~ In label_line (console (snd (run env_label_hidden ∅))) /\
  exists pre post,
    calls (snd (run env_label_hidden ∅)) =
      pre ++ CIsVisible label_locator :: CIsVisible star_locator :: post.
Proof.
  apply (marker_checked_when_label_hidden env_label_hidden ∅).
  - repeat split; try reflexivity. exists sample_png. reflexivity.
  - reflexivity.
Defined.

(** ** The console *)

Lemma console_error_only_last (out : stdout) (E : env)
    (fs : gmap string png) :
  only_last is_error_line (console (snd (run_on out E fs))) = true.
Proof. unfold console. run_on_paths; reflexivity. Qed.

(** C10, as amended.  In every run at most one [print] writes a text
    starting with "Error: ", and it is the last [print] of the run: no
    confirmation line comes after it.  On the console, what follows the
    confirmation lines is that one text, over as many lines as it has. *)
Theorem error_print_is_last (out : stdout) (E : env)
    (fs : gmap string png) :
  (length (List.filter is_error_line
             (console (snd (run_on out E fs)))) <= 1)%nat /\
  forall pre text post,
    console (snd (run_on out E fs)) = pre ++ text :: post ->
    is_error_line text = true ->
    post = [] /\
    console_lines (snd (run_on out E fs)) =
      flat_map lines_of pre ++ lines_of text.
Proof.
  split.
  - apply only_last_count, console_error_only_last.
  - intros pre text post Hsplit Herr.
    assert (Hpost : post = [])
      by exact (only_last_sound _ _ (console_error_only_last out E fs)
                  pre text post Hsplit Herr).
    split; [exact Hpost |]. subst post.
    unfold console_lines. rewrite Hsplit, flat_map_app. cbn [flat_map].
    rewrite app_nil_r. reflexivity.
Qed.

(** C10, as worded, fails: a timeout message carries its call log, so
    the line starting with "Error: " is followed by the lines of the log. *)
Lemma error_line_is_followed_by_call_log :
  console_lines (snd (run env_timeout_logged ∅)) =
    [ "Error: Page.goto: Timeout 10000ms exceeded."; "Call log:";
      "  - navigating to http://localhost:3000/" ] /\
  ~ error_line_ends_console.
Proof.
  assert (Hlines : console_lines (snd (run env_timeout_logged ∅)) =
            [] ++ "Error: Page.goto: Timeout 10000ms exceeded." ::
            [ "Call log:"; "  - navigating to http://localhost:3000/" ])
    by reflexivity.
  split; [exact Hlines |]. intros H.
  specialize (H env_timeout_logged ∅ _ _ _ Hlines eq_refl).
  discriminate H.
Qed.

(** ** Step 4: navigation *)

Lemma pw_goto_bound (net : string -> site) (url : string) (t ms : Z) :
  net url = LoadsIn ms -> (0 < t)%Z ->
  ((ms <= t)%Z -> pw_goto net url t = Returns tt) /\
  ((t < ms)%Z ->
   pw_goto net url t =
     Raises (Exc PlaywrightTimeoutError "Page.goto: Timeout exceeded.")).
Proof.
  intros Hnet Ht. unfold pw_goto. rewrite Hnet.
  destruct (Z.eqb_spec t 0) as [-> | _]; [lia |].
  destruct (Z.leb_spec ms t); cbn; split; intros; first [reflexivity | lia].
Qed.

(** C7.  The only navigation is to http://localhost:3000 with a timeout
    of 10000 ms.  A load that takes longer raises Playwright's timeout
    error, which the handler prints, and the click is not reached; a load
    within the bound lets the run go on to the click. *)
Theorem navigation_is_bounded (E : env) (net : string -> site) (ms : Z)
    (fs : gmap string png) :
  enters_try E ->
  (forall u t, goto_res E u t = pw_goto net u t) ->
  net app_url = LoadsIn ms ->
  In (CGoto "http://localhost:3000" 10000) (calls (snd (run E fs))) /\
  (forall u t, In (CGoto u t) (calls (snd (run E fs))) ->
     u = "http://localhost:3000" /\ t = 10000%Z) /\
  ((10000 < ms)%Z ->
   exists e,
     goto_res E app_url nav_timeout = Raises e /\
     exc_class_of e = PlaywrightTimeoutError /\
     console (snd (run E fs)) = [error_line e] /\
     ~ In (CClick new_novel_button) (calls (snd (run E fs))) /\
     (close_res E = Returns tt -> fst (run E fs) = Returns tt)) /\
  ((ms <= 10000)%Z ->
   goto_res E app_url nav_timeout = Returns tt /\
   In (CClick new_novel_button) (calls (snd (run E fs)))).
Proof.
  intros (Hs & Hl & Hn) Hgoto Hnet.
  destruct (pw_goto_bound net app_url nav_timeout ms Hnet eq_refl)
    as [Hfast Hslow].
  rewrite <- Hgoto in Hfast, Hslow. clear Hgoto Hnet.
  split; [| split; [| split]].
  - run_cases; find_in_list.
  - intros u t. run_cases; intros Hin; each_eq Hin;
      injection Hin as <- <-; split; reflexivity.
  - intros Hms. specialize (Hslow Hms). clear Hfast.
    eexists. split; [exact Hslow |]. split; [reflexivity |].
    run_cases;
      (split; [reflexivity
              | split; [intros Hin; each_eq Hin | congruence]]).
  - intros Hms. specialize (Hfast Hms). clear Hslow.
    split; [exact Hfast |]. run_cases; find_in_list.
Qed.

Lemma navigation_is_bounded_witness :
  exists e,
    goto_res env_slow app_url nav_timeout = Raises e /\
    exc_class_of e = PlaywrightTimeoutError /\
    console (snd (run env_slow ∅)) = [error_line e] /\
    ~ In (CClick new_novel_button) (calls (snd (run env_slow ∅))) /\
    (close_res env_slow = Returns tt -> fst (run env_slow ∅) = Returns tt).
Proof.
  apply (navigation_is_bounded env_slow (loads_in 10001) 10001 ∅).
  - repeat split; reflexivity.
  - intros u t. reflexivity.
  - reflexivity.
  - reflexivity.
Defined.

(** ** Two runs in a row *)

(** The only file a run touches is the screenshot. *)
Lemma run_files (E : env) (fs : gmap string png) :
  files (snd (run E fs)) =
    if existsb is_screenshot (calls (snd (run E fs)))
    then match screenshot_res E shot_path with
         | Returns img => <[shot_path := img]> fs
         | Raises _ => fs
         end
    else fs.
Proof.
  run_cases; use_answers; first [reflexivity | congruence].
Qed.

(** A run that gets its screenshot writes it over whatever the path
    held and announces it once. *)
Lemma screenshot_written_once (E : env) (fs : gmap string png) (img : png) :
  enters_try E -> goto_res E app_url nav_timeout = Returns tt ->
  click_res E new_novel_button = Returns tt ->
  wait_for_selector_res E modal_selector = Returns tt ->
  screenshot_res E shot_path = Returns img ->
  files (snd (run E fs)) = <[shot_path := img]> fs /\
  In (CScreenshot shot_path) (calls (snd (run E fs))) /\
  List.filter (String.eqb shot_line) (console (snd (run E fs))) =
    [shot_line].
Proof.
  intros (Hs & Hl & Hn) Hgoto Hc Hw Himg.
  run_cases; (split; [reflexivity | split; [| reflexivity]]);
    do 5 right; left; reflexivity.
Qed.

(** C8.  For a fixed environment, a second run on the file system left by
    the first returns the same result, makes the same calls and prints the
    same texts, and leaves the file system as the first run left it.
    When the run gets its screenshot, each of the two runs writes the
    image to the fixed path and announces it once; the file is the one
    image, whatever an earlier run, of this or of any other environment,
    had left there: nothing piles up from run to run. *)
Theorem second_run_repeats_first (E : env) (fs : gmap string png) :
  let first := run E fs in
  let second := run E (files (snd first)) in
  fst second = fst first /\
  calls (snd second) = calls (snd first) /\
  console (snd second) = console (snd first) /\
  files (snd second) = files (snd first) /\
  forall img,
    enters_try E -> goto_res E app_url nav_timeout = Returns tt ->
    click_res E new_novel_button = Returns tt ->
    wait_for_selector_res E modal_selector = Returns tt ->
    screenshot_res E shot_path = Returns img ->
    files (snd first) = <[shot_path := img]> fs /\
    files (snd second) = <[shot_path := img]> fs /\
    In (CScreenshot shot_path) (calls (snd second)) /\
    List.filter (String.eqb shot_line) (console (snd second)) =
      [shot_line] /\
    forall E0 : env,
      files (snd (run E (files (snd (run E0 fs))))) !! shot_path = Some img.
Proof.
  intros first second. subst first second.
  destruct (run_independent_of_files E (files (snd (run E fs))) fs)
    as [Hres Hcalls].
  split; [exact Hres |]. split; [exact Hcalls |].
  split; [unfold console; rewrite Hcalls; reflexivity |].
  split.
  - rewrite (run_files E (files (snd (run E fs)))), Hcalls.
    rewrite (run_files E fs).
    destruct (existsb is_screenshot (calls (snd (run E fs))));
      [| reflexivity].
    destruct (screenshot_res E shot_path); [| reflexivity].
    apply insert_insert_eq.
  - intros img Htry Hgoto Hc Hw Himg.
    destruct (screenshot_written_once E fs img Htry Hgoto Hc Hw Himg)
      as (Hfirst & _ & _).
    destruct (screenshot_written_once E (files (snd (run E fs))) img
                Htry Hgoto Hc Hw Himg) as (Hsecond & Hin & Honce).
    split; [exact Hfirst |].
    split; [rewrite Hsecond, Hfirst; apply insert_insert_eq |].
    split; [exact Hin |]. split; [exact Honce |].
    intros E0.
    destruct (screenshot_written_once E (files (snd (run E0 fs))) img
                Htry Hgoto Hc Hw Himg) as (Hafter & _ & _).
    rewrite Hafter. apply lookup_insert_eq.
Qed.

Lemma second_run_repeats_first_witness :
  files (snd (run env_up ∅)) = <[shot_path := sample_png]> ∅ /\
  files (snd (run env_up (files (snd (run env_up ∅))))) =
    <[shot_path := sample_png]> ∅ /\
  In (CScreenshot shot_path)
     (calls (snd (run env_up (files (snd (run env_up ∅)))))) /\
  List.filter (String.eqb shot_line)
    (console (snd (run env_up (files (snd (run env_up ∅)))))) =
    [shot_line] /\
  forall E0 : env,
    files (snd (run env_up (files (snd (run E0 ∅))))) !! shot_path =
      Some sample_png.
Proof.
  pose proof (second_run_repeats_first env_up ∅) as H. cbv zeta in H.
  destruct H as (_ & _ & _ & _ & H).
  apply (H sample_png); try reflexivity.
  repeat split; reflexivity.
Defined.

(** * Further properties of the routine *)


(** ** What the handler does not catch *)

(** X1.  [except Exception] lets [KeyboardInterrupt] and [SystemExit]
    through: when a call inside the [try] block raises an exception that
    is not an instance of [Exception], no "Error: " line is printed, the
    browser is still closed last, and the exception leaves the routine. *)
Theorem non_exception_leaves_routine (E : env) (fs : gmap string png)
    (c : call) (e : exc) :
  In c (calls (snd (run E fs))) -> is_step_4_to_9 c = true ->
  answer E c = Raises e -> is_Exception e = false ->
  List.filter is_error_line (console (snd (run E fs))) = [] /\
  last (calls (snd (run E fs))) = Some CClose /\
  (close_res E = Returns tt -> fst (run E fs) = Raises e).
Proof.
  run_cases; intros Hin Hstep Hans Hexc; each_call Hin;
    try discriminate Hstep; simpl in Hans; use_answers; try discriminate;
    try congruence;
    (split; [reflexivity | split; [reflexivity | congruence]]).
Qed.

Lemma non_exception_leaves_routine_witness :
  List.filter is_error_line (console (snd (run env_interrupted ∅))) = [] /\
  last (calls (snd (run env_interrupted ∅))) = Some CClose /\
  (close_res env_interrupted = Returns tt ->
   fst (run env_interrupted ∅) = Raises interrupt).
Proof.
  apply (non_exception_leaves_routine env_interrupted ∅
           (CGoto app_url nav_timeout) interrupt).
  - vm_compute. right; right; left; reflexivity.
  - reflexivity.
  - reflexivity.
  - reflexivity.
Defined.

(** X2.  An exception of [browser.close()] in the [finally] clause
    leaves the routine, whatever the [try] block did: even a run whose
    error was caught and printed ends by raising.  The browser is then
    ended by the teardown of the session, not by the call. *)
Theorem close_error_leaves_routine (out : stdout) (E : env)
    (fs : gmap string png) (e : exc) :
  enters_try E -> close_res E = Raises e ->
  fst (run_on out E fs) = Raises e /\
  last (calls (snd (run_on out E fs))) = Some CClose /\
  browser_state (snd (run_on out E fs)) = Terminated.
Proof.
  intros (Hs & Hl & Hn) Hclose. run_on_cases; repeat split.
Qed.

Lemma close_error_leaves_routine_witness :
  fst (run_on accepting env_close_fails ∅) = Raises close_failed /\
  last (calls (snd (run_on accepting env_close_fails ∅))) = Some CClose /\
  browser_state (snd (run_on accepting env_close_fails ∅)) = Terminated.
Proof.
  apply (close_error_leaves_routine accepting env_close_fails ∅
           close_failed).
  - repeat split; reflexivity.
  - reflexivity.
Defined.

(** ** Failures before the [try] statement *)

(** X3.  When [browser.new_page()] raises, the routine has launched the
    browser and made no other call: nothing is printed, no file is
    written and [browser.close()] is not called; the exception leaves the
    routine, and the browser is ended by the teardown of the session. *)
Theorem page_creation_error_skips_close (E : env)
    (fs : gmap string png) (e : exc) :
  start_res E = Returns tt -> launch_res E true = Returns tt ->
  new_page_res E = Raises e ->
  fst (run E fs) = Raises e /\
  calls (snd (run E fs)) = [CLaunch true; CNewPage] /\
  files (snd (run E fs)) = fs /\
  browser_state (snd (run E fs)) = Terminated.
Proof.
  intros Hs Hl Hn. run_cases; repeat split.
Qed.

Lemma page_creation_error_skips_close_witness :
  fst (run new_page_fails ∅) = Raises no_page_error /\
  calls (snd (run new_page_fails ∅)) = [CLaunch true; CNewPage] /\
  files (snd (run new_page_fails ∅)) = ∅ /\
  browser_state (snd (run new_page_fails ∅)) = Terminated.
Proof.
  apply (page_creation_error_skips_close new_page_fails ∅
           no_page_error); reflexivity.
Defined.

(** X4.  When [p.chromium.launch] raises, the launch is the only call of
    the run: no page, no console line, no file, no [browser.close()]; the
    exception leaves the routine. *)
Theorem launch_error_stops_run (E : env) (fs : gmap string png) (e : exc) :
  start_res E = Returns tt -> launch_res E true = Raises e ->
  fst (run E fs) = Raises e /\
  calls (snd (run E fs)) = [CLaunch true] /\
  files (snd (run E fs)) = fs /\
  browser_state (snd (run E fs)) = NotLaunched.
Proof.
  intros Hs Hl. run_cases; repeat split.
Qed.

Lemma launch_error_stops_run_witness :
  fst (run launch_fails ∅) = Raises no_browser_error /\
  calls (snd (run launch_fails ∅)) = [CLaunch true] /\
  files (snd (run launch_fails ∅)) = ∅ /\
  browser_state (snd (run launch_fails ∅)) = NotLaunched.
Proof.
  apply (launch_error_stops_run launch_fails ∅ no_browser_error);
    reflexivity.
Defined.

(** X5.  When [sync_playwright()] cannot be entered, the body of the
    [with] statement does not run: no call is made and the world is left
    as it was. *)
Theorem session_error_runs_nothing (E : env) (fs : gmap string png)
    (e : exc) :
  start_res E = Raises e ->
  run E fs = (Raises e, fresh fs).
Proof.
  intros Hs. unfold_script. rewrite Hs. reflexivity.
Qed.

Lemma session_error_runs_nothing_witness :
  run env_no_driver ∅ = (Raises driver_missing, fresh ∅).
Proof.
  apply (session_error_runs_nothing env_no_driver ∅ driver_missing).
  reflexivity.
Defined.

(** ** The file system *)

(** X7.  A run changes no file but the screenshot: every other path
    holds what it held before, and once [page.screenshot] has returned,
    the screenshot path holds its image whatever happens afterwards. *)
Theorem only_screenshot_file_changes (E : env) (fs : gmap string png) :
  (forall path, path <> shot_path ->
     files (snd (run E fs)) !! path = fs !! path) /\
  (forall img,
     In (CScreenshot shot_path) (calls (snd (run E fs))) ->
     screenshot_res E shot_path = Returns img ->
     files (snd (run E fs)) !! shot_path = Some img) /\
  (existsb is_screenshot (calls (snd (run E fs))) = false ->
   files (snd (run E fs)) = fs).
Proof.
  rewrite (run_files E fs). split; [| split].
  - intros path Hne.
    destruct (existsb is_screenshot (calls (snd (run E fs))));
      [| reflexivity].
    destruct (screenshot_res E shot_path); [| reflexivity].
    apply lookup_insert_ne. congruence.
  - intros img Hin Himg. rewrite Himg.
    replace (existsb is_screenshot (calls (snd (run E fs)))) with true.
    + apply lookup_insert_eq.
    + symmetry. apply existsb_exists.
      exists (CScreenshot shot_path). split; [exact Hin | reflexivity].
  - intros ->. reflexivity.
Qed.

(** ** Failures inside the [try] block *)



(** X9.  When the label check raises after the screenshot was taken,
    what was done stays done: the file is written and its line printed;
    the error line follows, and the marker is never looked for. *)
Theorem label_check_error_keeps_screenshot (E : env)
    (fs : gmap string png) (img : png) (e : exc) :
  enters_try E -> goto_res E app_url nav_timeout = Returns tt ->
  click_res E new_novel_button = Returns tt ->
  wait_for_selector_res E modal_selector = Returns tt ->
  screenshot_res E shot_path = Returns img ->
  is_visible_res E label_locator = Raises e -> is_Exception e = true ->
  files (snd (run E fs)) = <[shot_path := img]> fs /\
  console (snd (run E fs)) = [shot_line; error_line e] /\
  ~ In (CIsVisible star_locator) (calls (snd (run E fs))).
Proof.
  intros (Hs & Hl & Hn) Hgoto Hc Hw Hshot Hlabel Hexc.
  run_cases; (split; [reflexivity | split; [reflexivity |]]);
    intros Hin; each_eq Hin.
Qed.

Lemma label_check_error_keeps_screenshot_witness :
  files (snd (run env_two_labels ∅)) = <[shot_path := sample_png]> ∅ /\
  console (snd (run env_two_labels ∅)) =
    [shot_line; error_line strict_violation] /\
  ~ In (CIsVisible star_locator) (calls (snd (run env_two_labels ∅))).
Proof.
  apply (label_check_error_keeps_screenshot env_two_labels ∅ sample_png
           strict_violation); try reflexivity.
  repeat split; reflexivity.
Defined.

(** X10.  A step of the [try] block that raises is the last step tried:
    after it the log holds the error line, if the exception is one the
    handler catches, and the closing of the browser, nothing else. *)
Theorem failed_step_ends_try_block (E : env) (fs : gmap string png)
    (c : call) (e : exc) :
  In c (calls (snd (run E fs))) -> is_step_4_to_9 c = true ->
  answer E c = Raises e ->
  calls_after c (calls (snd (run E fs))) =
    (if is_Exception e then [CPrint (error_line e)] else []) ++ [CClose].
Proof.
  run_paths; intros Hin Hstep Hans; cbn [In] in Hin; each_call Hin;
    try discriminate Hstep; simpl in Hans; settle_answers;
    try discriminate; try congruence; reflexivity.
Qed.

Lemma failed_step_ends_try_block_witness :
  calls_after (CGoto app_url nav_timeout)
    (calls (snd (run env_no_server ∅))) =
    (if is_Exception connection_refused
     then [CPrint (error_line connection_refused)] else []) ++ [CClose].
Proof.
  apply (failed_step_ends_try_block env_no_server ∅
           (CGoto app_url nav_timeout) connection_refused).
  - vm_compute. right; right; left; reflexivity.
  - reflexivity.
  - reflexivity.
Defined.

(** ** The run as a whole *)

(** X11.  When every step returns, the console shows the screenshot line,
    then the label line if the label is visible, then the marker line if
    the marker is visible, in that order and nothing else; the result of
    the run is the result of [browser.close()]. *)
Theorem console_when_steps_return (E : env) (fs : gmap string png)
    (label_visible star_visible : bool) :
  reaches_checks E ->
  is_visible_res E label_locator = Returns label_visible ->
  is_visible_res E star_locator = Returns star_visible ->
  console (snd (run E fs)) =
    shot_line :: (if label_visible then [label_line] else []) ++
                 (if star_visible then [star_line] else []) /\
  fst (run E fs) = close_res E.
Proof.
  intros ((Hs & Hl & Hn) & Hgoto & Hc & Hw & img & Himg) Hlabel Hstar.
  destruct label_visible, star_visible; run_cases; settle_answers;
    split; reflexivity.
Qed.

Lemma console_when_steps_return_witness :
  console (snd (run env_star_hidden ∅)) =
    shot_line :: (if true then [label_line] else []) ++
                 (if false then [star_line] else []) /\
  fst (run env_star_hidden ∅) = close_res env_star_hidden.
Proof.
  apply (console_when_steps_return env_star_hidden ∅ true false).
  - repeat split; try reflexivity. exists sample_png. reflexivity.
  - reflexivity.
  - reflexivity.
Defined.

(** X12.  The steps are tried in the order of the source, each at most
    once and none skipped: the calls of a run on the browser and the page
    are an initial segment of the eight steps. *)
Theorem steps_in_source_order (E : env) (fs : gmap string png) :
  List.filter is_step_2_to_9 (calls (snd (run E fs)))
    `prefix_of` script_steps.
Proof.
  unfold script_steps. run_cases; eexists; reflexivity.
Qed.

(** X13.  No call is repeated: the routine never retries a step and
    never prints a line twice. *)
Theorem no_call_repeated (E : env) (fs : gmap string png) :
  NoDup (calls (snd (run E fs))).
Proof.
  run_cases; apply (bool_decide_unpack _); vm_compute; exact I.
Qed.

(** ** How a run ends *)

(** X15.  No run leaves a browser open.  The browser is closed by
    [browser.close()] exactly when the run got to the [try] statement and
    that call returned; it was never launched exactly when the session or
    the launch failed; in every other case the teardown of the session
    ended it. *)
Theorem browser_never_left_open (out : stdout) (E : env)
    (fs : gmap string png) :
  browser_state (snd (run_on out E fs)) <> Open /\
  (browser_state (snd (run_on out E fs)) = Closed <->
   enters_try E /\ close_res E = Returns tt) /\
  (browser_state (snd (run_on out E fs)) = NotLaunched <->
   ~ (start_res E = Returns tt /\ launch_res E true = Returns tt)).
Proof.
  unfold enters_try.
  run_on_cases; settle_answers; intuition congruence.
Qed.

(** X16.  A run that returns normally has closed the browser, as its
    last call, and has left the session. *)
Theorem normal_return_means_closed (E : env) (fs : gmap string png) :
  fst (run E fs) = Returns tt ->
  browser_state (snd (run E fs)) = Closed /\
  last (calls (snd (run E fs))) = Some CClose /\
  session_running (snd (run E fs)) = false.
Proof.
  run_cases; intros Hret; try discriminate Hret; repeat split.
Qed.

Lemma normal_return_means_closed_witness :
  browser_state (snd (run env_up ∅)) = Closed /\
  last (calls (snd (run env_up ∅))) = Some CClose /\
  session_running (snd (run env_up ∅)) = false.
Proof.
  apply (normal_return_means_closed env_up ∅). reflexivity.
Defined.

(** Name a call of the log as the one that raised the escaping
    exception. *)
Ltac blame_one x :=
  exists x; split;
  [ solve [find_in_log]
  | split;
    [ cbn [answer_on answer];
      first [ eassumption
            | match goal with
              | H : ?y = Raises _ |- forget ?y = _ => rewrite H; reflexivity
              end ]
    | first [ right; reflexivity
            | left; split;
              [ assumption
              | first [left; reflexivity | right; reflexivity] ] ] ] ].

Ltac blame_in l :=
  match l with
  | ?x :: ?rest => first [ solve [blame_one x] | blame_in rest ]
  end.

Ltac blame_any :=
  match goal with
  | |- exists c, In c ?l /\ _ =>
      let l' := eval cbn in l in blame_in l'
  end.

(** X17.  An exception leaves the routine only if it was raised by
    entering the session, by the launch, by the page creation or by
    [browser.close()]; or by the [print] of the [except] clause; or if it
    is not an instance of [Exception] and was raised inside the [try]
    block, by a step or by a [print].  An instance of [Exception] raised
    inside the [try] block never escapes. *)
Theorem escaping_exception_origin (out : stdout) (E : env)
    (fs : gmap string png) (e : exc) :
  fst (run_on out E fs) = Raises e ->
  start_res E = Raises e \/ launch_res E true = Raises e \/
  new_page_res E = Raises e \/ close_res E = Raises e \/
  exists c, In c (calls (snd (run_on out E fs))) /\
            answer_on out E c = Raises e /\
            ((is_Exception e = false /\
              (is_step_4_to_9 c = true \/ is_confirmation_print c = true)) \/
             is_error_print c = true).
Proof.
  run_on_paths; intros Hret; try discriminate Hret.
  all: try (injection Hret as <-).
  all: try first [ left; reflexivity
          | right; left; reflexivity
          | right; right; left; reflexivity
          | right; right; right; left; reflexivity
          | do 4 right; blame_any ].
Qed.

Lemma escaping_exception_origin_witness :
  start_res env_accented = Raises encode_error \/
  launch_res env_accented true = Raises encode_error \/
  new_page_res env_accented = Raises encode_error \/
  close_res env_accented = Raises encode_error \/
  exists c, In c (calls (snd (run_on ascii_console env_accented ∅))) /\
            answer_on ascii_console env_accented c = Raises encode_error /\
            ((is_Exception encode_error = false /\
              (is_step_4_to_9 c = true \/ is_confirmation_print c = true)) \/
             is_error_print c = true).
Proof.
  apply (escaping_exception_origin ascii_console env_accented ∅
           encode_error).
  reflexivity.
Defined.
